(** * The language-client extension ([client/src/extension.ts]), embedded

    The extension is one module with a module-level variable [client], an
    asynchronous [activate], a synchronous [deactivate] and the handler of
    the command [helloworld.helloWorld].  Everything else (the editor, the
    language-client library, the console, the process environment) is the
    host.  The embedding keeps the host as a [World]: the objects it has
    created, in creation order, and the trace of calls it has received.
    The code runs in a state-and-exception monad over that world.

    The calls into the editor and the library return normally, as the code
    (which has no [try]) expects them to; [console.log] does too, unless
    formatting its argument throws.  What the host decides, the settlement
    of the promises of [client.start()] and [client.stop()], is an argument
    of the call. *)

From stdpp Require Import base numbers strings list gmap.

Open Scope string_scope.
Open Scope list_scope.

(** ** Values *)

(** A number is a double: not-a-number, an infinity, or a signed [m * 2^e]
    (every finite double is one: 1.5 is [3 * 2^-1], and zero has a sign). *)
Inductive number : Type :=
| NaN
| Infinity (negative : bool)
| Finite (negative : bool) (m : N) (e : Z).

#[global] Instance number_eq_dec : EqDecision number.
Proof. solve_decision. Defined.

(** A JavaScript value, as far as this module can tell values apart: all it
    does with one is compare it with [null], call a method of it, or hand
    it to [console.log].  An object of the host is its identity, an index
    into the heap of host objects.  An object of a caller is told apart by
    what formatting it for the console does: [VThrowing e] is one whose
    inspection (a custom inspector, an accessor or a proxy trap that
    formatting runs) throws [e]. *)
Inductive value : Type :=
| VUndefined
| VNull
| VBool (b : bool)
| VNum (x : number)
| VStr (s : string)
| VObj (r : nat)
| VError (name message : string)
| VBigInt (n : Z)
| VSymbol (description : string)
| VThrowing (e : value).

#[global] Instance value_eq_dec : EqDecision value.
Proof. unfold EqDecision, Decision. decide equality; solve_decision. Defined.

(** [v === null].  Strict equality with [null] holds of [null] alone;
    [undefined === null] is false. *)
Definition strict_eq_null (v : value) : bool :=
  match v with
  | VNull => true
  | _ => false
  end.

(** How a promise ends: fulfilled with a value, rejected with a reason, or
    never settled. *)
Inductive settlement : Type :=
| Fulfilled (v : value)
| Rejected (e : value)
| Pending.

(** ** The data handed to the language client *)

(** [process.env]: every variable that is set is bound to a string. *)
Abbreviation environment := (gmap string string).

Module ExecutableOptions.
Record t : Type := { env : environment }.
End ExecutableOptions.

Module Executable.
Record t : Type := { command : string; options : ExecutableOptions.t }.
End Executable.

Module ServerOptions.
Record t : Type := { run : Executable.t; debug : Executable.t }.
End ServerOptions.

Module DocumentFilter.
Record t : Type := { scheme : string; language : string }.
End DocumentFilter.

Module SynchronizeOptions.
Record t : Type := { fileEvents : value }.
End SynchronizeOptions.

Module LanguageClientOptions.
Record t : Type := {
  documentSelector : list DocumentFilter.t;
  synchronize : SynchronizeOptions.t;
  traceOutputChannel : value
}.
End LanguageClientOptions.

(** ** The host *)

(** The objects the host creates for the extension. *)
Inductive host_object : Type :=
| OCommand (id : string)
| OOutputChannel (name : string)
| OFileSystemWatcher (globPattern : string)
| OLanguageClient (id name : string)
    (so : ServerOptions.t) (co : LanguageClientOptions.t).

(** The calls the host receives, oldest first in a trace. *)
Inductive event : Type :=
| ERegisterCommand (id : string) (r : nat)
| ESubscriptionsPush (d : value)
| ECreateOutputChannel (name : string) (r : nat)
| EConsoleLog (v : value)
| ECreateFileSystemWatcher (globPattern : string) (r : nat)
| ENewLanguageClient (r : nat)
| EStart (r : nat)
| EStop (r : nat).

#[global] Instance event_eq_dec : EqDecision event.
Proof. solve_decision. Defined.

Record World : Type := {
  client : value;                 (* [let client: LanguageClient] *)
  process_env : environment;      (* [process.env] *)
  subscriptions : list value;     (* [context.subscriptions] *)
  heap : list host_object;        (* host objects; a reference is an index *)
  trace : list event              (* host calls so far *)
}.

(** ** The monad the code runs in *)

(** A computation returns, throws, or is suspended at an [await] whose
    promise never settles. *)
Inductive result (A : Type) : Type :=
| Return (a : A)
| Throw (e : value)
| Suspend.
Arguments Return {A} a.
Arguments Throw {A} e.
Arguments Suspend {A}.

Definition Run (A : Type) : Type := World → result A * World.

#[global] Instance Run_ret : MRet Run := λ A a w, (Return a, w).

#[global] Instance Run_bind : MBind Run := λ A B k m w,
  match m w with
  | (Return a, w') => k a w'
  | (Throw e, w') => (Throw e, w')
  | (Suspend, w') => (Suspend, w')
  end.

Definition throw {A} (e : value) : Run A := λ w, (Throw e, w).

(** An [async] function never throws to its caller: it returns a promise. *)
Definition async (body : Run value) : Run settlement := λ w,
  match body w with
  | (Return v, w') => (Return (Fulfilled v), w')
  | (Throw e, w') => (Return (Rejected e), w')
  | (Suspend, w') => (Return Pending, w')
  end.

Definition await (p : settlement) : Run value := λ w,
  match p with
  | Fulfilled v => (Return v, w)
  | Rejected e => (Throw e, w)
  | Pending => (Suspend, w)
  end.

(** *** Primitive effects *)

Definition emit (e : event) : Run unit := λ w,
  (Return (),
   {| client := client w; process_env := process_env w;
      subscriptions := subscriptions w; heap := heap w;
      trace := trace w ++ [e] |}).

(** A new host object gets the next free reference. *)
Definition alloc (o : host_object) : Run nat := λ w,
  (Return (length (heap w)),
   {| client := client w; process_env := process_env w;
      subscriptions := subscriptions w; heap := heap w ++ [o];
      trace := trace w |}).

Definition get_client : Run value := λ w, (Return (client w), w).

Definition set_client (v : value) : Run unit := λ w,
  (Return (),
   {| client := v; process_env := process_env w;
      subscriptions := subscriptions w; heap := heap w;
      trace := trace w |}).

Definition get_process_env : Run environment := λ w, (Return (process_env w), w).

(** What formatting [v] for the console throws, if it throws. *)
Definition inspection_fault (v : value) : option value :=
  match v with
  | VThrowing e => Some e
  | _ => None
  end.

(** [console.log(v)]: the line is written once [v] is formatted; when the
    formatting throws, nothing is written and the exception is the
    caller's. *)
Definition console_log (v : value) : Run unit :=
  match inspection_fault v with
  | Some e => throw e
  | None => emit (EConsoleLog v)
  end.

(** [commands.registerCommand(id, handler)] *)
Definition registerCommand (id : string) : Run value :=
  r ← alloc (OCommand id);
  emit (ERegisterCommand id r);;
  mret (VObj r).

(** [context.subscriptions.push(d)] *)
Definition subscriptions_push (d : value) : Run unit := λ w,
  emit (ESubscriptionsPush d)
    {| client := client w; process_env := process_env w;
       subscriptions := subscriptions w ++ [d]; heap := heap w;
       trace := trace w |}.

(** [window.createOutputChannel(name)] *)
Definition createOutputChannel (name : string) : Run value :=
  r ← alloc (OOutputChannel name);
  emit (ECreateOutputChannel name r);;
  mret (VObj r).

(** [workspace.createFileSystemWatcher(globPattern)] *)
Definition createFileSystemWatcher (globPattern : string) : Run value :=
  r ← alloc (OFileSystemWatcher globPattern);
  emit (ECreateFileSystemWatcher globPattern r);;
  mret (VObj r).

(** [new LanguageClient(id, name, serverOptions, clientOptions)] *)
Definition new_LanguageClient (id name : string)
    (so : ServerOptions.t) (co : LanguageClientOptions.t) : Run value :=
  r ← alloc (OLanguageClient id name so co);
  emit (ENewLanguageClient r);;
  mret (VObj r).

Definition TypeError (message : string) : value := VError "TypeError" message.

(** [c.start()] and [c.stop()].  Reading a property of [undefined] or [null]
    throws a [TypeError]; on any other value that is not a language client
    the property is missing and calling it throws too.  On a client the
    library's method runs and hands back its promise, whose settlement
    [p] is the host's. *)
Definition call_method (method : string) (ev : nat → event)
    (c : value) (p : settlement) : Run settlement := λ w,
  match c with
  | VUndefined =>
      throw (TypeError ("Cannot read properties of undefined (reading '" +:+ method +:+ "')")) w
  | VNull =>
      throw (TypeError ("Cannot read properties of null (reading '" +:+ method +:+ "')")) w
  | VObj r =>
      match heap w !! r with
      | Some (OLanguageClient _ _ _ _) => (emit (ev r);; mret p) w
      | _ => throw (TypeError ("client." +:+ method +:+ " is not a function")) w
      end
  | _ => throw (TypeError ("client." +:+ method +:+ " is not a function")) w
  end.

Definition client_start : value → settlement → Run settlement := call_method "start" EStart.
Definition client_stop : value → settlement → Run settlement := call_method "stop" EStop.

(** ** The extension *)

(** [a ?? b] on a property that is a string when present: the right operand
    is taken only when the left one is [undefined]. *)
Definition nullish_coalesce (a : option string) (b : string) : string :=
  match a with
  | Some s => s
  | None => b
  end.

(** [{ ...src }] into an object literal that so far holds [target]: every
    property of [src] is copied, replacing a property of the same name. *)
Definition spread (src target : environment) : environment := src ∪ target.

(** [const command = process.env.SERVER_PATH ?? 'generic-language-server'] *)
Definition command (penv : environment) : string :=
  nullish_coalesce (penv !! "SERVER_PATH") "generic-language-server".

(** [const run: Executable = { command, options: { env: { ...process.env, RUST_LOG: 'debug' } } }] *)
Definition run (command : string) (penv : environment) : Executable.t :=
  {| Executable.command := command;
     Executable.options :=
       {| ExecutableOptions.env := <["RUST_LOG" := "debug"]> (spread penv ∅) |} |}.

(** [const serverOptions: ServerOptions = { run, debug: run }] *)
Definition serverOptions (run : Executable.t) : ServerOptions.t :=
  {| ServerOptions.run := run; ServerOptions.debug := run |}.

(** [const clientOptions: LanguageClientOptions = { documentSelector,
    synchronize: { fileEvents }, traceOutputChannel }] *)
Definition clientOptions (fileEvents traceOutputChannel : value)
    : LanguageClientOptions.t :=
  {| LanguageClientOptions.documentSelector :=
       [ {| DocumentFilter.scheme := "file"; DocumentFilter.language := "gen" |} ];
     LanguageClientOptions.synchronize :=
       {| SynchronizeOptions.fileEvents := fileEvents |};
     LanguageClientOptions.traceOutputChannel := traceOutputChannel |}.

(** The handler registered for [helloworld.helloWorld]: [async uri => ...]. *)
Definition helloWorld (uri : value) : Run settlement :=
  async (
    console_log (VStr "Running command registered as helloworld.helloWorld");;
    console_log uri;;
    mret VUndefined).

(** [export async function activate (context)].  [started] is how the
    promise of [client.start()] settles. *)
Definition activate (started : settlement) : Run settlement :=
  async (
    disposable ← registerCommand "helloworld.helloWorld";
    subscriptions_push disposable;;
    traceOutputChannel ← createOutputChannel "Generic Language Server trace";
    penv ← get_process_env;
    let command := command penv in
    console_log (VStr command);;
    penv ← get_process_env;
    let run := run command penv in
    let serverOptions := serverOptions run in
    fileEvents ← createFileSystemWatcher "**/*.gen";
    let clientOptions := clientOptions fileEvents traceOutputChannel in
    c ← new_LanguageClient "generic-language-server" "Generic language server"
          serverOptions clientOptions;
    set_client c;;
    console_log (VStr "Running Generic LSP extention");;
    c ← get_client;
    p ← client_start c started;
    await p;;
    mret VUndefined).

(** [export function deactivate (): Thenable<void> | undefined].  [None] is
    [undefined]; [stopped] is how the promise of [client.stop()] settles. *)
Definition deactivate (stopped : settlement) : Run (option settlement) :=
  console_log (VStr "Exiting Generic LSP extention");;
  c ← get_client;
  if strict_eq_null c then mret None
  else
    p ← client_stop c stopped;
    mret (Some p).

(** Loading the module evaluates [let client: LanguageClient], which has no
    initialiser: the variable holds [undefined]. *)
Definition load (w : World) : World :=
  {| client := VUndefined; process_env := process_env w;
     subscriptions := subscriptions w; heap := heap w; trace := trace w |}.

(** The host's calls into the loaded module.  The host is free to make
    them in any order: the command can be run at any time, [activate] and
    [deactivate] any number of times. *)
Inductive call : Type :=
| Activate (started : settlement)
| Deactivate (stopped : settlement)
| HelloWorld (uri : value).

Definition step (w : World) (c : call) : World :=
  match c with
  | Activate started => (activate started w).2
  | Deactivate stopped => (deactivate stopped w).2
  | HelloWorld uri => (helloWorld uri w).2
  end.

Definition calls (cs : list call) (w : World) : World := foldl step w cs.

(** A host that has created nothing and set no variable. *)
Definition empty_world : World :=
  {| client := VNull; process_env := ∅; subscriptions := []; heap := []; trace := [] |}.

(** ** Observations *)

(** The object the module-level [client] refers to, if it refers to one. *)
Definition client_object (w : World) : option host_object :=
  match client w with
  | VObj r => heap w !! r
  | _ => None
  end.

Definition is_LanguageClient (o : option host_object) : bool :=
  match o with
  | Some (OLanguageClient _ _ _ _) => true
  | _ => false
  end.

(** What [client] holds in a loaded module: [undefined], or a reference to
    a language client the module has constructed. *)
Definition client_invariant (w : World) : Prop :=
  client w = VUndefined
  ∨ ∃ r, client w = VObj r ∧ is_LanguageClient (heap w !! r) = true.

(** The events a call has added to the trace [before]. *)
Definition emitted (before : list event) (w : World) : list event :=
  drop (length before) (trace w).

Definition is_stop (e : event) : bool :=
  match e with
  | EStop _ => true
  | _ => false
  end.

(** [a] occurs in [l] strictly before [b]. *)
Definition precedes (a b : event) (l : list event) : Prop :=
  ∃ i j, l !! i = Some a ∧ l !! j = Some b ∧ i < j.

(** Modelled from the spec: the editor's matching of a document against a
    document selector is not in this repository (the source only builds the
    selector).  Following the spec's ScopeRule, a document matches a rule
    iff its scheme and its language identifier both equal the rule's,
    exactly; the selector of the source is a list of rules and is matched
    when one of them is. *)
Definition filter_matches (f : DocumentFilter.t) (scheme languageId : string) : bool :=
  bool_decide (scheme = DocumentFilter.scheme f)
  && bool_decide (languageId = DocumentFilter.language f).

(** Modelled from the spec: the scope predicate [matches] of the
    DocumentScopeFilter, over the list of rules the source builds. *)
Definition matches (selector : list DocumentFilter.t) (scheme languageId : string) : bool :=
  existsb (λ f, filter_matches f scheme languageId) selector.

(** ** Counting what the host's calls have done *)

Definition is_Activate (c : call) : bool :=
  match c with
  | Activate _ => true
  | _ => false
  end.

(** The number of activations among the calls. *)
Definition activations (cs : list call) : nat :=
  length (List.filter is_Activate cs).

(** The clients on which [start()] was called, in the order of the calls. *)
Definition started_clients (l : list event) : list nat :=
  omap (λ e, match e with EStart r => Some r | _ => None end) l.

(** The clients on which [stop()] was called, in the order of the calls. *)
Definition stopped_clients (l : list event) : list nat :=
  omap (λ e, match e with EStop r => Some r | _ => None end) l.

(** The names of the output channels among host objects. *)
Definition output_channels (objs : list host_object) : list string :=
  omap (λ o, match o with OOutputChannel name => Some name | _ => None end) objs.

(** The glob patterns of the file-system watchers among host objects. *)
Definition watched_globs (objs : list host_object) : list string :=
  omap (λ o, match o with OFileSystemWatcher g => Some g | _ => None end) objs.

Definition is_HelloWorld (c : call) : bool :=
  match c with
  | HelloWorld _ => true
  | _ => false
  end.

(** All of the world but the trace of host calls. *)
Definition lifecycle_state (w : World)
    : value * environment * list value * list host_object :=
  (client w, process_env w, subscriptions w, heap w).

(** * Running the code on concrete worlds *)

Example load_then_deactivate :
  deactivate (Fulfilled VUndefined) (load empty_world) =
  (Throw (TypeError "Cannot read properties of undefined (reading 'stop')"),
   {| client := VUndefined; process_env := ∅; subscriptions := []; heap := [];
      trace := [EConsoleLog (VStr "Exiting Generic LSP extention")] |}).
Proof. reflexivity. Qed.

Example null_client_deactivate :
  (deactivate (Fulfilled VUndefined) empty_world).1 = Return None.
Proof. reflexivity. Qed.

Example activate_then_deactivate :
  let w := calls [Activate (Fulfilled VUndefined)] (load empty_world) in
  client w = VObj 3
  ∧ subscriptions w = [VObj 0]
  ∧ (deactivate Pending w).1 = Return (Some Pending)
  ∧ trace (deactivate Pending w).2 =
      [ ERegisterCommand "helloworld.helloWorld" 0;
        ESubscriptionsPush (VObj 0);
        ECreateOutputChannel "Generic Language Server trace" 1;
        EConsoleLog (VStr "generic-language-server");
        ECreateFileSystemWatcher "**/*.gen" 2;
        ENewLanguageClient 3;
        EConsoleLog (VStr "Running Generic LSP extention");
        EStart 3;
        EConsoleLog (VStr "Exiting Generic LSP extention");
        EStop 3 ].
Proof. vm_compute. done. Qed.

Example command_of_override :
  command {[ "SERVER_PATH" := "/usr/local/bin/gls"; "RUST_LOG" := "warn" ]}
    = "/usr/local/bin/gls"
  ∧ command {[ "SERVER_PATH" := "" ]} = ""
  ∧ command ∅ = "generic-language-server".
Proof. vm_compute. done. Qed.

Example run_environment :
  ExecutableOptions.env (Executable.options
    (run "gls" {[ "RUST_LOG" := "warn"; "HOME" := "/root" ]}))
  = {[ "RUST_LOG" := "debug"; "HOME" := "/root" ]}.
Proof. by vm_compute. Qed.

Example helloWorld_uri :
  helloWorld (VStr "file:///a.gen") (load empty_world) =
  (Return (Fulfilled VUndefined),
   {| client := VUndefined; process_env := ∅; subscriptions := []; heap := [];
      trace :=
        [ EConsoleLog (VStr "Running command registered as helloworld.helloWorld");
          EConsoleLog (VStr "file:///a.gen") ] |}).
Proof. reflexivity. Qed.

(** Unfolds a sequence of host calls into the calls of the module. *)
Ltac run_calls := cbv [calls foldl step].

(** * Running the code on an arbitrary world *)

Lemma lookup_fresh {A} (l : list A) (x : A) :
  (l ++ [x]) !! length l = Some x.
Proof. by apply list_lookup_middle. Qed.

Lemma activate_run started w :
  activate started w =
  (Return match started with
          | Fulfilled _ => Fulfilled VUndefined
          | Rejected e => Rejected e
          | Pending => Pending
          end,
   let r := length (heap w) in
   let command := command (process_env w) in
   {| client := VObj (r + 3);
      process_env := process_env w;
      subscriptions := subscriptions w ++ [VObj r];
      heap := heap w ++
        [ OCommand "helloworld.helloWorld";
          OOutputChannel "Generic Language Server trace";
          OFileSystemWatcher "**/*.gen";
          OLanguageClient "generic-language-server" "Generic language server"
            (serverOptions (run command (process_env w)))
            (clientOptions (VObj (r + 2)) (VObj (r + 1))) ];
      trace := trace w ++
        [ ERegisterCommand "helloworld.helloWorld" r;
          ESubscriptionsPush (VObj r);
          ECreateOutputChannel "Generic Language Server trace" (r + 1);
          EConsoleLog (VStr command);
          ECreateFileSystemWatcher "**/*.gen" (r + 2);
          ENewLanguageClient (r + 3);
          EConsoleLog (VStr "Running Generic LSP extention");
          EStart (r + 3) ] |}).
Proof.
  destruct w as [c penv subs objs evs].
  cbv [activate async mbind Run_bind mret Run_ret registerCommand
       subscriptions_push createOutputChannel createFileSystemWatcher
       new_LanguageClient set_client get_client get_process_env console_log
       inspection_fault emit alloc client_start call_method throw await
       client heap trace subscriptions process_env].
  rewrite lookup_fresh.
  rewrite !length_app, <- !app_assoc. simpl. rewrite <- !Nat.add_assoc. simpl.
  by destruct started.
Qed.

(** What [activate] leaves behind, field by field. *)
Section Activated.
Context (started : settlement) (w : World).

Lemma activate_result :
  (activate started w).1 =
  Return match started with
         | Fulfilled _ => Fulfilled VUndefined
         | Rejected e => Rejected e
         | Pending => Pending
         end.
Proof. by rewrite activate_run. Qed.

Lemma activate_client :
  client (activate started w).2 = VObj (length (heap w) + 3).
Proof. by rewrite activate_run. Qed.

Lemma activate_process_env :
  process_env (activate started w).2 = process_env w.
Proof. by rewrite activate_run. Qed.

Lemma activate_subscriptions :
  subscriptions (activate started w).2 = subscriptions w ++ [VObj (length (heap w))].
Proof. by rewrite activate_run. Qed.

Lemma activate_heap :
  heap (activate started w).2 =
  heap w ++
    [ OCommand "helloworld.helloWorld";
      OOutputChannel "Generic Language Server trace";
      OFileSystemWatcher "**/*.gen";
      OLanguageClient "generic-language-server" "Generic language server"
        (serverOptions (run (command (process_env w)) (process_env w)))
        (clientOptions (VObj (length (heap w) + 2)) (VObj (length (heap w) + 1))) ].
Proof. by rewrite activate_run. Qed.

Lemma activate_trace :
  trace (activate started w).2 =
  trace w ++
    [ ERegisterCommand "helloworld.helloWorld" (length (heap w));
      ESubscriptionsPush (VObj (length (heap w)));
      ECreateOutputChannel "Generic Language Server trace" (length (heap w) + 1);
      EConsoleLog (VStr (command (process_env w)));
      ECreateFileSystemWatcher "**/*.gen" (length (heap w) + 2);
      ENewLanguageClient (length (heap w) + 3);
      EConsoleLog (VStr "Running Generic LSP extention");
      EStart (length (heap w) + 3) ].
Proof. by rewrite activate_run. Qed.

(** The fresh references: the [k]-th object created by this activation. *)
Lemma activate_heap_new (k : nat) :
  heap (activate started w).2 !! (length (heap w) + k) =
  [ OCommand "helloworld.helloWorld";
    OOutputChannel "Generic Language Server trace";
    OFileSystemWatcher "**/*.gen";
    OLanguageClient "generic-language-server" "Generic language server"
      (serverOptions (run (command (process_env w)) (process_env w)))
      (clientOptions (VObj (length (heap w) + 2)) (VObj (length (heap w) + 1))) ]
  !! k.
Proof.
  rewrite activate_heap, lookup_app_r by lia.
  f_equal. lia.
Qed.

(** Objects that existed before keep their reference. *)
Lemma activate_heap_old (r : nat) (o : host_object) :
  heap w !! r = Some o → heap (activate started w).2 !! r = Some o.
Proof. intros Hr. rewrite activate_heap. by apply lookup_app_l_Some. Qed.

Lemma activate_client_object :
  client_object (activate started w).2 =
  Some (OLanguageClient "generic-language-server" "Generic language server"
          (serverOptions (run (command (process_env w)) (process_env w)))
          (clientOptions (VObj (length (heap w) + 2)) (VObj (length (heap w) + 1)))).
Proof.
  unfold client_object. rewrite activate_client.
  by rewrite activate_heap_new.
Qed.

End Activated.

(** [deactivate], by what [client] holds. *)
Section Deactivated.
Context (stopped : settlement) (w : World).

Lemma deactivate_undefined :
  client w = VUndefined →
  (deactivate stopped w).1 =
  Throw (TypeError "Cannot read properties of undefined (reading 'stop')").
Proof.
  destruct w as [c penv subs objs evs]; simpl; intros ->. reflexivity.
Qed.

Lemma deactivate_LanguageClient (r : nat) :
  client w = VObj r →
  is_LanguageClient (heap w !! r) = true →
  (deactivate stopped w).1 = Return (Some stopped)
  ∧ trace (deactivate stopped w).2 =
      trace w ++ [EConsoleLog (VStr "Exiting Generic LSP extention"); EStop r].
Proof.
  destruct w as [c penv subs objs evs]; simpl; intros -> Hr.
  cbv [deactivate mbind Run_bind mret Run_ret console_log inspection_fault emit get_client
       strict_eq_null client_stop call_method throw
       client heap trace subscriptions process_env].
  destruct (objs !! r) as [[]|]; try discriminate.
  by rewrite <- app_assoc.
Qed.

Lemma deactivate_client : client (deactivate stopped w).2 = client w.
Proof.
  destruct w as [c penv subs objs evs].
  cbv [deactivate mbind Run_bind mret Run_ret console_log inspection_fault emit get_client
       strict_eq_null client_stop call_method throw
       client heap trace subscriptions process_env].
  destruct c as [| | | | |r| | | |]; try reflexivity.
  by destruct (objs !! r) as [[]|].
Qed.

Lemma deactivate_heap : heap (deactivate stopped w).2 = heap w.
Proof.
  destruct w as [c penv subs objs evs].
  cbv [deactivate mbind Run_bind mret Run_ret console_log inspection_fault emit get_client
       strict_eq_null client_stop call_method throw
       client heap trace subscriptions process_env].
  destruct c as [| | | | |r| | | |]; try reflexivity.
  by destruct (objs !! r) as [[]|].
Qed.

End Deactivated.

Lemma helloWorld_run (uri : value) (w : World) :
  helloWorld uri w =
  (Return match inspection_fault uri with
          | Some e => Rejected e
          | None => Fulfilled VUndefined
          end,
   {| client := client w; process_env := process_env w;
      subscriptions := subscriptions w; heap := heap w;
      trace := trace w ++
        EConsoleLog (VStr "Running command registered as helloworld.helloWorld") ::
        match inspection_fault uri with
        | Some _ => []
        | None => [EConsoleLog uri]
        end |}).
Proof.
  destruct w as [c penv subs objs evs].
  cbv [helloWorld async mbind Run_bind mret Run_ret console_log emit throw
       client heap trace subscriptions process_env].
  cbn [inspection_fault].
  destruct (inspection_fault uri) as [e|]; [reflexivity|].
  by rewrite <- app_assoc.
Qed.

Lemma emitted_app (before new : list event) (w : World) :
  trace w = before ++ new → emitted before w = new.
Proof. unfold emitted. intros ->. apply drop_app_length. Qed.

(** * The launch configuration *)

Lemma command_default (penv : environment) :
  penv !! "SERVER_PATH" = None → command penv = "generic-language-server".
Proof. unfold command. by intros ->. Qed.

(** C2, as the code has it: when [SERVER_PATH] is bound in the environment,
    to any string X, the empty one included, the launch command is X; when
    the variable is absent the command is the default name
    [generic-language-server]. *)
Theorem C2_command_resolution (penv : environment) (X : string) :
  (penv !! "SERVER_PATH" = Some X → command penv = X)
  ∧ (penv !! "SERVER_PATH" = None → command penv = "generic-language-server").
Proof.
  unfold command. split; intros ->; reflexivity.
Qed.

Lemma C2_command_resolution_witness :
  command {[ "SERVER_PATH" := "/opt/gls/server" ]} = "/opt/gls/server"
  ∧ command {[ "HOME" := "/root" ]} = "generic-language-server".
Proof.
  split.
  - apply (proj1 (C2_command_resolution {[ "SERVER_PATH" := "/opt/gls/server" ]} "/opt/gls/server")).
    reflexivity.
  - apply (proj2 (C2_command_resolution {[ "HOME" := "/root" ]} "")).
    reflexivity.
Defined.

(** C2, as the spec has it, fails: with [SERVER_PATH] bound to the empty
    string the command is the empty string, not the default name. *)
Lemma C2_empty_override_counterexample :
  ¬ (∀ penv : environment,
       (∀ X, penv !! "SERVER_PATH" = Some X → X ≠ "" → command penv = X)
       ∧ (penv !! "SERVER_PATH" = None ∨ penv !! "SERVER_PATH" = Some "" →
          command penv = "generic-language-server")).
Proof.
  intros H.
  destruct (H {[ "SERVER_PATH" := "" ]}) as [_ Hdefault].
  specialize (Hdefault (or_intror eq_refl)).
  vm_compute in Hdefault. discriminate Hdefault.
Qed.

(** C5: the environment of the launch spec is the inherited environment
    with [RUST_LOG] bound to [debug], whatever it was bound to before, and
    every other variable as inherited. *)
Theorem C5_launch_environment (started : settlement) (w : World) (k : string) :
  ∃ id name so co,
    client_object (activate started w).2 = Some (OLanguageClient id name so co)
    ∧ ExecutableOptions.env (Executable.options (ServerOptions.run so))
      = <["RUST_LOG" := "debug"]> (process_env w)
    ∧ ExecutableOptions.env (Executable.options (ServerOptions.run so)) !! k
      = if decide (k = "RUST_LOG") then Some "debug" else process_env w !! k.
Proof.
  rewrite activate_client_object.
  eexists _, _, _, _. split; [reflexivity|].
  unfold serverOptions, run, spread; simpl.
  rewrite (right_id_L ∅ (∪) (process_env w)).
  split; [reflexivity|].
  case_decide as Hk.
  - subst k. apply lookup_insert_eq.
  - by apply lookup_insert_ne.
Qed.

(** C6: the run-mode and the debug-mode launch specs are one and the same:
    same command, same environment. *)
Theorem C6_run_debug_identical (started : settlement) (w : World) :
  ∃ id name so co,
    client_object (activate started w).2 = Some (OLanguageClient id name so co)
    ∧ ServerOptions.run so = ServerOptions.debug so
    ∧ Executable.command (ServerOptions.run so)
      = Executable.command (ServerOptions.debug so)
    ∧ ExecutableOptions.env (Executable.options (ServerOptions.run so))
      = ExecutableOptions.env (Executable.options (ServerOptions.debug so)).
Proof.
  rewrite activate_client_object.
  eexists _, _, _, _. split; [reflexivity|].
  unfold serverOptions; simpl. done.
Qed.

(** * Document scope and file watching *)

Lemma filter_matches_spec (f : DocumentFilter.t) (scheme languageId : string) :
  filter_matches f scheme languageId = true
  ↔ scheme = DocumentFilter.scheme f ∧ languageId = DocumentFilter.language f.
Proof.
  unfold filter_matches.
  rewrite andb_true_iff, !bool_decide_eq_true. reflexivity.
Qed.

(** C4: a document is in the scope of the session iff its scheme is [file]
    and its language identifier is [gen]. *)
Theorem C4_document_scope (fileEvents traceOutputChannel : value)
    (scheme languageId : string) :
  matches
    (LanguageClientOptions.documentSelector
       (clientOptions fileEvents traceOutputChannel))
    scheme languageId = true
  ↔ scheme = "file" ∧ languageId = "gen".
Proof.
  unfold matches, clientOptions; simpl.
  rewrite orb_false_r. apply filter_matches_spec.
Qed.

(** C7: activated in an environment without [SERVER_PATH], the extension
    hands the client the scope rule (scheme [file], language [gen]) and
    the watcher of the glob [**/*.gen]; the command is the default one. *)
Theorem C7_activation_scope_and_watch (started : settlement) (w : World) :
  process_env w !! "SERVER_PATH" = None →
  ∃ id name so co watcher,
    client_object (activate started w).2 = Some (OLanguageClient id name so co)
    ∧ LanguageClientOptions.documentSelector co
      = [ {| DocumentFilter.scheme := "file"; DocumentFilter.language := "gen" |} ]
    ∧ SynchronizeOptions.fileEvents (LanguageClientOptions.synchronize co)
      = VObj watcher
    ∧ heap (activate started w).2 !! watcher = Some (OFileSystemWatcher "**/*.gen")
    ∧ heap w !! watcher = None
    ∧ Executable.command (ServerOptions.run so) = "generic-language-server".
Proof.
  intros Henv.
  rewrite activate_client_object.
  eexists _, _, _, _, (length (heap w) + 2).
  split; [reflexivity|].
  split; [reflexivity|]. split; [reflexivity|].
  split; [by rewrite activate_heap_new|].
  split; [apply lookup_ge_None; lia|].
  by apply command_default.
Qed.

Lemma C7_activation_scope_and_watch_witness :
  ∃ id name so co watcher,
    client_object (activate Pending (load empty_world)).2
      = Some (OLanguageClient id name so co)
    ∧ LanguageClientOptions.documentSelector co
      = [ {| DocumentFilter.scheme := "file"; DocumentFilter.language := "gen" |} ]
    ∧ SynchronizeOptions.fileEvents (LanguageClientOptions.synchronize co)
      = VObj watcher
    ∧ heap (activate Pending (load empty_world)).2 !! watcher
      = Some (OFileSystemWatcher "**/*.gen")
    ∧ heap (load empty_world) !! watcher = None
    ∧ Executable.command (ServerOptions.run so) = "generic-language-server".
Proof.
  apply (C7_activation_scope_and_watch Pending (load empty_world)).
  reflexivity.
Defined.

(** * The auxiliary command *)

(** C8, as the code has it: whatever its argument, the handler of
    [helloworld.helloWorld] does nothing but log and never throws to its
    caller; what the caller gets is a promise.  It logs its message; then,
    when [console.log] formats the argument, it logs the argument and the
    promise is fulfilled with [undefined]; when formatting the argument
    throws, nothing more is logged and the promise is rejected with what
    was thrown, since the handler catches nothing. *)
Theorem C8_handler_logs_or_rejects (uri : value) (w : World) :
  (inspection_fault uri = None →
     (helloWorld uri w).1 = Return (Fulfilled VUndefined)
     ∧ emitted (trace w) (helloWorld uri w).2
       = [ EConsoleLog (VStr "Running command registered as helloworld.helloWorld");
           EConsoleLog uri ])
  ∧ (∀ e, inspection_fault uri = Some e →
       (helloWorld uri w).1 = Return (Rejected e)
       ∧ emitted (trace w) (helloWorld uri w).2
         = [ EConsoleLog (VStr "Running command registered as helloworld.helloWorld") ])
  ∧ (∃ p, (helloWorld uri w).1 = Return p)
  ∧ client (helloWorld uri w).2 = client w
  ∧ process_env (helloWorld uri w).2 = process_env w
  ∧ subscriptions (helloWorld uri w).2 = subscriptions w
  ∧ heap (helloWorld uri w).2 = heap w.
Proof.
  rewrite helloWorld_run. cbn [fst snd client process_env subscriptions heap].
  split; [|split].
  - intros ->. split; [reflexivity|]. by apply emitted_app.
  - intros e ->. split; [reflexivity|]. by apply emitted_app.
  - split; [by eexists|]. done.
Qed.

Lemma C8_handler_logs_or_rejects_witness :
  ((helloWorld (VStr "file:///a.gen") (load empty_world)).1
     = Return (Fulfilled VUndefined)
   ∧ emitted [] (helloWorld (VStr "file:///a.gen") (load empty_world)).2
     = [ EConsoleLog (VStr "Running command registered as helloworld.helloWorld");
         EConsoleLog (VStr "file:///a.gen") ])
  ∧ ((helloWorld (VThrowing (VError "Error" "boom")) (load empty_world)).1
       = Return (Rejected (VError "Error" "boom"))
     ∧ emitted [] (helloWorld (VThrowing (VError "Error" "boom")) (load empty_world)).2
       = [ EConsoleLog (VStr "Running command registered as helloworld.helloWorld") ]).
Proof.
  split.
  - apply (proj1 (C8_handler_logs_or_rejects (VStr "file:///a.gen") (load empty_world))).
    reflexivity.
  - apply (proj1 (proj2 (C8_handler_logs_or_rejects
             (VThrowing (VError "Error" "boom")) (load empty_world)))
             (VError "Error" "boom")).
    reflexivity.
Defined.

(** C8, as the spec has it, fails: on an argument whose formatting throws,
    the handler's promise is rejected, after one line of log instead of
    two. *)
Lemma C8_throwing_argument_counterexample :
  ¬ (∀ (uri : value) (w : World),
       (helloWorld uri w).1 = Return (Fulfilled VUndefined)
       ∧ emitted (trace w) (helloWorld uri w).2
         = [ EConsoleLog (VStr "Running command registered as helloworld.helloWorld");
             EConsoleLog uri ]).
Proof.
  intros H.
  destruct (H (VThrowing (VError "Error" "boom")) (load empty_world)) as [Hresult _].
  vm_compute in Hresult. discriminate Hresult.
Qed.

(** * The session reference *)

Lemma load_invariant (w : World) : client_invariant (load w).
Proof. by left. Qed.

Lemma step_invariant (w : World) (c : call) :
  client_invariant w → client_invariant (step w c).
Proof.
  intros Hinv. destruct c as [started|stopped|uri]; cbn [step].
  - right. exists (length (heap w) + 3).
    split; [apply activate_client|].
    by rewrite activate_heap_new.
  - unfold client_invariant.
    by rewrite deactivate_client, deactivate_heap.
  - by rewrite helloWorld_run.
Qed.

Lemma calls_invariant (cs : list call) (w : World) :
  client_invariant w → client_invariant (calls cs w).
Proof.
  revert w. induction cs as [|c cs IH]; intros w Hinv; [done|].
  apply IH, step_invariant, Hinv.
Qed.

Lemma invariant_not_null (w : World) :
  client_invariant w → strict_eq_null (client w) = false.
Proof. by intros [->|(r & -> & _)]. Qed.

(** Past a false guard, [deactivate] is the log followed by [client.stop()]. *)
Lemma deactivate_guard_false (stopped : settlement) (w : World) :
  strict_eq_null (client w) = false →
  deactivate stopped w =
  (console_log (VStr "Exiting Generic LSP extention");;
   p ← client_stop (client w) stopped;
   mret (Some p)) w.
Proof.
  destruct w as [c penv subs objs evs]; simpl; intros Hguard.
  cbv [deactivate mbind Run_bind mret Run_ret console_log inspection_fault emit get_client
       client heap trace subscriptions process_env].
  by rewrite Hguard.
Qed.

(** C9: in a loaded module, after any calls of the host, [client] is not
    [null]: it is [undefined] until the first activation and from then on
    a constructed language client.  So the guard [client === null] of
    [deactivate] is false, [undefined] is never returned, and every
    [deactivate] goes on to [client.stop()] on what [client] holds. *)
Theorem C9_null_guard_never_holds (cs : list call) (w : World) (stopped : settlement) :
  let w' := calls cs (load w) in
  client (load w) = VUndefined
  ∧ client_invariant w'
  ∧ strict_eq_null (client w') = false
  ∧ (deactivate stopped w').1 ≠ Return None
  ∧ deactivate stopped w' =
    (console_log (VStr "Exiting Generic LSP extention");;
     p ← client_stop (client w') stopped;
     mret (Some p)) w'.
Proof.
  intros w'.
  assert (Hinv : client_invariant w') by apply calls_invariant, load_invariant.
  split; [reflexivity|]. split; [exact Hinv|].
  split; [by apply invariant_not_null|].
  split; [|by apply deactivate_guard_false, invariant_not_null].
  destruct Hinv as [Hundef|(r & Hr & Hobj)].
  - by rewrite (deactivate_undefined stopped w' Hundef).
  - destruct (deactivate_LanguageClient stopped w' r Hr Hobj) as [-> _].
    discriminate.
Qed.

(** C1, which the code breaks: before any activation [client] is
    [undefined], the guard [client === null] lets it through, and
    [client.stop()] throws a [TypeError] out of [deactivate], which
    neither returns [undefined] nor a promise. *)
Theorem C1_deactivate_unstarted_throws (stopped : settlement) (w : World) :
  (deactivate stopped (load w)).1
    = Throw (TypeError "Cannot read properties of undefined (reading 'stop')")
  ∧ (deactivate stopped (load w)).1 ≠ Return None
  ∧ ∀ p, (deactivate stopped (load w)).1 ≠ Return (Some p).
Proof.
  rewrite (deactivate_undefined stopped (load w) eq_refl).
  split; [reflexivity|]. split; [|intros p]; discriminate.
Qed.

(** C3: two activations in a row construct two language clients with
    different references, [client] refers to the second, both are started
    and nothing in these calls stops the first (or any) client. *)
Theorem C3_second_start_leaks_first (s1 s2 : settlement) (w : World) :
  let w1 := calls [Activate s1] w in
  let w2 := calls [Activate s1; Activate s2] w in
  let h1 := length (heap w) + 3 in
  let h2 := length (heap w) + 7 in
  client w1 = VObj h1 ∧ client w2 = VObj h2 ∧ h1 ≠ h2
  ∧ heap w !! h1 = None ∧ heap w1 !! h2 = None
  ∧ is_LanguageClient (heap w2 !! h1) = true
  ∧ is_LanguageClient (heap w2 !! h2) = true
  ∧ EStart h1 ∈ emitted (trace w) w2
  ∧ EStart h2 ∈ emitted (trace w) w2
  ∧ forallb (λ e, negb (is_stop e)) (emitted (trace w) w2) = true.
Proof.
  intros w1 w2 h1 h2.
  assert (Hw1 : w1 = (activate s1 w).2) by (unfold w1; run_calls; reflexivity).
  assert (Hw2 : w2 = (activate s2 w1).2) by (unfold w2, w1; run_calls; reflexivity).
  clearbody w1 w2.
  assert (Hlen : length (heap w1) = length (heap w) + 4).
  { rewrite Hw1, activate_heap, length_app. reflexivity. }
  assert (Htrace : ∃ new,
    trace w2 = trace w ++ new
    ∧ EStart h1 ∈ new ∧ EStart h2 ∈ new
    ∧ forallb (λ e, negb (is_stop e)) new = true).
  { rewrite Hw2, activate_trace, Hlen.
    rewrite Hw1, activate_trace, activate_process_env, <- app_assoc.
    eexists. split; [reflexivity|].
    rewrite <- !Nat.add_assoc. cbn [Nat.add].
    split; [apply list_elem_of_lookup; by exists 7|].
    split; [apply list_elem_of_lookup; by exists 15|].
    reflexivity. }
  destruct Htrace as (new & Hnew & Hs1 & Hs2 & Hnostop).
  rewrite (emitted_app _ _ _ Hnew).
  split; [rewrite Hw1; apply activate_client|].
  split; [rewrite Hw2, activate_client, Hlen; f_equal; unfold h2; lia|].
  split; [unfold h1, h2; lia|].
  split; [apply lookup_ge_None; unfold h1; lia|].
  split; [apply lookup_ge_None; unfold h2; lia|].
  split.
  { pose proof (activate_heap_new s1 w 3) as Hfirst.
    rewrite <- Hw1 in Hfirst. cbn [lookup list_lookup] in Hfirst.
    rewrite Hw2, (activate_heap_old s2 w1 h1 _ Hfirst). reflexivity. }
  split.
  { replace h2 with (length (heap w1) + 3) by (unfold h2; lia).
    rewrite Hw2. by rewrite activate_heap_new. }
  exact (conj Hs1 (conj Hs2 Hnostop)).
Qed.

(** C10: [activate] registers the command, pushes it on the context's
    subscriptions and creates the trace channel, in that order, before it
    constructs and then starts the language client.  When [client.start()]
    rejects, [activate] rejects with the same reason and undoes nothing:
    the subscription, the command, the channel and the [client] reference
    stay, and [start] is the last thing it did. *)
Theorem C10_no_rollback_on_failed_start (e : value) (w : World) :
  let w' := (activate (Rejected e) w).2 in
  let r := length (heap w) in
  (activate (Rejected e) w).1 = Return (Rejected e)
  ∧ precedes (ESubscriptionsPush (VObj r)) (ENewLanguageClient (r + 3))
      (emitted (trace w) w')
  ∧ precedes (ECreateOutputChannel "Generic Language Server trace" (r + 1))
      (ENewLanguageClient (r + 3)) (emitted (trace w) w')
  ∧ precedes (ENewLanguageClient (r + 3)) (EStart (r + 3)) (emitted (trace w) w')
  ∧ emitted (trace w) w' =
      [ ERegisterCommand "helloworld.helloWorld" r;
        ESubscriptionsPush (VObj r);
        ECreateOutputChannel "Generic Language Server trace" (r + 1);
        EConsoleLog (VStr (command (process_env w)));
        ECreateFileSystemWatcher "**/*.gen" (r + 2);
        ENewLanguageClient (r + 3);
        EConsoleLog (VStr "Running Generic LSP extention");
        EStart (r + 3) ]
  ∧ subscriptions w' = subscriptions w ++ [VObj r]
  ∧ heap w' !! r = Some (OCommand "helloworld.helloWorld")
  ∧ heap w' !! (r + 1) = Some (OOutputChannel "Generic Language Server trace")
  ∧ client w' = VObj (r + 3)
  ∧ is_LanguageClient (heap w' !! (r + 3)) = true.
Proof.
  intros w' r. subst w' r.
  rewrite (emitted_app _ _ _ (activate_trace (Rejected e) w)).
  split; [apply activate_result|].
  split; [exists 1, 5; repeat split; lia|].
  split; [exists 2, 5; repeat split; lia|].
  split; [exists 5, 7; repeat split; lia|].
  split; [reflexivity|].
  split; [apply activate_subscriptions|].
  split.
  { rewrite <- (Nat.add_0_r (length (heap w))) at 1. by rewrite activate_heap_new. }
  split; [by rewrite activate_heap_new|].
  split; [apply activate_client|].
  by rewrite activate_heap_new.
Qed.

(** * Further properties of the lifecycle *)

(** [deactivate] in full, by what [client] holds. *)
Lemma deactivate_run (stopped : settlement) (w : World) :
  deactivate stopped w =
  (match client w with
   | VNull => Return None
   | VUndefined =>
       Throw (TypeError "Cannot read properties of undefined (reading 'stop')")
   | VObj r =>
       if is_LanguageClient (heap w !! r) then Return (Some stopped)
       else Throw (TypeError "client.stop is not a function")
   | _ => Throw (TypeError "client.stop is not a function")
   end,
   {| client := client w; process_env := process_env w;
      subscriptions := subscriptions w; heap := heap w;
      trace := trace w ++
        EConsoleLog (VStr "Exiting Generic LSP extention") ::
        match client w with
        | VObj r => if is_LanguageClient (heap w !! r) then [EStop r] else []
        | _ => []
        end |}).
Proof.
  destruct w as [c penv subs objs evs].
  cbv [deactivate mbind Run_bind mret Run_ret console_log inspection_fault emit get_client
       strict_eq_null client_stop call_method throw is_LanguageClient
       client heap trace subscriptions process_env].
  destruct c as [| | | | |r| | | |]; try reflexivity.
  destruct (objs !! r) as [[]|]; rewrite <- ?app_assoc; reflexivity.
Qed.

(** X1: the promise of [activate] settles as the promise of
    [client.start()] does: fulfilled with [undefined] whatever [start] was
    fulfilled with, rejected with the very reason of [start], pending while
    [start] is.  What [activate] does to the world is the same in the three
    cases. *)
Theorem activate_settles_as_start (v e : value) (started : settlement) (w : World) :
  (activate (Fulfilled v) w).1 = Return (Fulfilled VUndefined)
  ∧ (activate (Rejected e) w).1 = Return (Rejected e)
  ∧ (activate Pending w).1 = Return Pending
  ∧ (activate started w).2 = (activate Pending w).2.
Proof. rewrite !activate_run. done. Qed.

(** X2: the three outcomes of [deactivate].  It returns [undefined] exactly
    when [client] is [null]; it returns a promise, the one of
    [client.stop()], exactly when [client] refers to a language client; in
    every other state it throws.  It is never left waiting. *)
Theorem deactivate_outcomes (stopped : settlement) (w : World) :
  ((deactivate stopped w).1 = Return None ↔ client w = VNull)
  ∧ (∀ p, (deactivate stopped w).1 = Return (Some p)
          ↔ p = stopped
            ∧ ∃ r, client w = VObj r ∧ is_LanguageClient (heap w !! r) = true)
  ∧ ((∃ e, (deactivate stopped w).1 = Throw e)
     ↔ client w ≠ VNull
       ∧ ∀ r, client w = VObj r → is_LanguageClient (heap w !! r) = false)
  ∧ (deactivate stopped w).1 ≠ Suspend.
Proof.
  rewrite deactivate_run. cbn [fst].
  destruct (client w) as [| | | | |r| | | |] eqn:Hc.
  all: try (split; [split; intros; discriminate|];
            split; [intros p; split; [discriminate|intros [_ (r & Hr & _)]; discriminate]|];
            split; [split; [intros _; split; [discriminate|intros r Hr; discriminate]
                           |intros _; eexists; reflexivity]|discriminate]).
  - (* null *)
    split; [done|].
    split; [intros p; split; [discriminate|intros [_ (r & Hr & _)]; discriminate]|].
    split; [|discriminate].
    split; [intros [e He]; discriminate|intros [Hn _]; done].
  - (* an object *)
    destruct (is_LanguageClient (heap w !! r)) eqn:Hobj.
    + split; [split; intros; discriminate|].
      split.
      { intros p; split.
        - intros [= <-]. split; [reflexivity|]. by exists r.
        - by intros [-> _]. }
      split; [|discriminate].
      split; [intros [e He]; discriminate|].
      intros [_ Hno]. specialize (Hno r eq_refl). congruence.
    + split; [split; intros; discriminate|].
      split.
      { intros p; split; [discriminate|].
        intros [_ (r' & [= <-] & Hr')]. congruence. }
      split; [|discriminate].
      split; [|intros _; eexists; reflexivity].
      intros _. split; [discriminate|]. by intros r' [= <-].
Qed.

(** The calls one after the other. *)
Lemma calls_snoc (cs : list call) (c : call) (w : World) :
  calls (cs ++ [c]) w = step (calls cs w) c.
Proof. unfold calls. by rewrite foldl_app. Qed.

Lemma calls_cons (c : call) (cs : list call) (w : World) :
  calls (c :: cs) w = calls cs (step w c).
Proof. reflexivity. Qed.

Lemma activations_snoc (cs : list call) (c : call) :
  activations (cs ++ [c]) = activations cs + (if is_Activate c then 1 else 0).
Proof.
  unfold activations. rewrite List.filter_app, length_app. f_equal.
  by destruct c.
Qed.

(** A client that [client] refers to stays referred to, whatever is called,
    until the next activation replaces it. *)
Lemma step_live (w : World) (c : call) :
  (∃ r, client w = VObj r ∧ is_LanguageClient (heap w !! r) = true) →
  ∃ r, client (step w c) = VObj r ∧ is_LanguageClient (heap (step w c) !! r) = true.
Proof.
  intros Hlive. destruct c as [started|stopped|uri]; cbn [step].
  - exists (length (heap w) + 3).
    split; [apply activate_client|]. by rewrite activate_heap_new.
  - by rewrite deactivate_client, deactivate_heap.
  - by rewrite helloWorld_run.
Qed.

Lemma calls_live (cs : list call) (w : World) :
  (∃ r, client w = VObj r ∧ is_LanguageClient (heap w !! r) = true) →
  ∃ r, client (calls cs w) = VObj r
       ∧ is_LanguageClient (heap (calls cs w) !! r) = true.
Proof.
  revert w. induction cs as [|c cs IH]; intros w Hlive; [done|].
  rewrite calls_cons. by apply IH, step_live.
Qed.

(** X3: once the extension has been activated, however [start] went and
    whatever was called since, [deactivate] does not throw: it logs, calls
    [stop()] on the client that [client] refers to and returns the promise
    of that call. *)
Theorem deactivate_after_activate (cs : list call) (w : World) (stopped : settlement) :
  existsb is_Activate cs = true →
  let w' := calls cs w in
  ∃ r, client w' = VObj r
    ∧ is_LanguageClient (heap w' !! r) = true
    ∧ (deactivate stopped w').1 = Return (Some stopped)
    ∧ emitted (trace w') (deactivate stopped w').2
      = [ EConsoleLog (VStr "Exiting Generic LSP extention"); EStop r ].
Proof.
  intros Hact w'.
  assert (Hlive : ∃ r, client w' = VObj r
                       ∧ is_LanguageClient (heap w' !! r) = true).
  { subst w'. revert w Hact.
    induction cs as [|c cs IH]; intros w Hact; [discriminate|].
    rewrite calls_cons.
    destruct c as [started|stopped'|uri]; cbn [existsb is_Activate orb] in Hact.
    - apply calls_live. cbn [step].
      exists (length (heap w) + 3).
      split; [apply activate_client|]. by rewrite activate_heap_new.
    - by apply IH.
    - by apply IH. }
  destruct Hlive as (r & Hr & Hobj). exists r.
  split; [exact Hr|]. split; [exact Hobj|].
  rewrite deactivate_run, Hr, Hobj. cbn [fst snd].
  split; [reflexivity|]. by apply emitted_app.
Qed.

Lemma deactivate_after_activate_witness :
  let w' := calls [Activate (Rejected (VStr "spawn ENOENT")); HelloWorld VNull]
              (load empty_world) in
  ∃ r, client w' = VObj r
    ∧ is_LanguageClient (heap w' !! r) = true
    ∧ (deactivate Pending w').1 = Return (Some Pending)
    ∧ emitted (trace w') (deactivate Pending w').2
      = [ EConsoleLog (VStr "Exiting Generic LSP extention"); EStop r ].
Proof.
  apply (deactivate_after_activate
           [Activate (Rejected (VStr "spawn ENOENT")); HelloWorld VNull]
           (load empty_world) Pending).
  reflexivity.
Defined.

(** X4: [deactivate] never clears [client], nor does it touch the
    subscriptions, the host's objects or the environment.  So a second
    [deactivate] does exactly what the first did: the same outcome and the
    same calls, [stop()] on the same client included. *)
Theorem deactivate_twice (s1 s2 : settlement) (w : World) :
  let w' := (deactivate s1 w).2 in
  client w' = client w
  ∧ subscriptions w' = subscriptions w
  ∧ heap w' = heap w
  ∧ process_env w' = process_env w
  ∧ (deactivate s2 w').1 = (deactivate s2 w).1
  ∧ emitted (trace w') (deactivate s2 w').2 = emitted (trace w) w'.
Proof.
  intros w'. subst w'.
  rewrite (deactivate_run s2 (deactivate s1 w).2).
  rewrite !deactivate_run. cbn [fst snd client heap subscriptions process_env trace].
  repeat (split; [reflexivity|]).
  unfold emitted; cbn [trace]. by rewrite !drop_app_length.
Qed.

(** X5: the command that [activate] logs is the command it launches, in
    run mode and in debug mode alike. *)
Theorem logged_command_is_launched (started : settlement) (w : World) :
  ∃ id name so co c,
    client_object (activate started w).2 = Some (OLanguageClient id name so co)
    ∧ EConsoleLog (VStr c) ∈ emitted (trace w) (activate started w).2
    ∧ Executable.command (ServerOptions.run so) = c
    ∧ Executable.command (ServerOptions.debug so) = c.
Proof.
  rewrite activate_client_object.
  rewrite (emitted_app _ _ _ (activate_trace started w)).
  eexists _, _, _, _, (command (process_env w)).
  split; [reflexivity|].
  split; [apply list_elem_of_lookup; by exists 3|].
  split; reflexivity.
Qed.

(** ** Over any sequence of calls *)

(** What one call adds to the host's objects and to the subscriptions. *)
Lemma step_heap (w : World) (c : call) :
  ∃ objs, heap (step w c) = heap w ++ objs
    ∧ length objs = (if is_Activate c then 4 else 0)
    ∧ output_channels objs
      = (if is_Activate c then ["Generic Language Server trace"] else [])
    ∧ watched_globs objs = (if is_Activate c then ["**/*.gen"] else []).
Proof.
  destruct c as [started|stopped|uri]; cbn [step is_Activate].
  - rewrite activate_heap. eexists. split; [reflexivity|]. done.
  - rewrite deactivate_heap. exists []. by rewrite app_nil_r.
  - rewrite helloWorld_run. exists []. by rewrite app_nil_r.
Qed.

Lemma step_subscriptions (w : World) (c : call) :
  subscriptions (step w c) =
  subscriptions w ++ (if is_Activate c then [VObj (length (heap w))] else []).
Proof.
  destruct c as [started|stopped|uri]; cbn [step is_Activate].
  - apply activate_subscriptions.
  - rewrite deactivate_run. cbn [snd subscriptions]. by rewrite app_nil_r.
  - rewrite helloWorld_run. cbn [snd subscriptions]. by rewrite app_nil_r.
Qed.

Lemma calls_heap (cs : list call) (w : World) :
  ∃ objs, heap (calls cs w) = heap w ++ objs
    ∧ length objs = 4 * activations cs
    ∧ output_channels objs
      = replicate (activations cs) "Generic Language Server trace"
    ∧ watched_globs objs = replicate (activations cs) "**/*.gen".
Proof.
  induction cs as [|c cs IH] using rev_ind.
  - exists []. by rewrite app_nil_r.
  - destruct IH as (objs & Hheap & Hlen & Hch & Hgl).
    destruct (step_heap (calls cs w) c) as (objs' & Hheap' & Hlen' & Hch' & Hgl').
    exists (objs ++ objs').
    rewrite calls_snoc, Hheap', Hheap, <- app_assoc.
    split; [reflexivity|].
    unfold output_channels, watched_globs in *.
    rewrite length_app, !omap_app, Hlen, Hlen', Hch, Hch', Hgl, Hgl', activations_snoc.
    destruct (is_Activate c).
    + rewrite !Nat.add_1_r, !replicate_S_end. split; [lia|done].
    + rewrite !Nat.add_0_r, !app_nil_r. done.
Qed.


(** X7: the subscriptions of the context grow by one entry per activation
    and by nothing else, and each entry is the registration of the command
    [helloworld.helloWorld] made by that activation.  The trace channel,
    the file watcher and the language client are never among them. *)
Theorem subscriptions_only_commands (cs : list call) (w : World) :
  ∃ new, subscriptions (calls cs w) = subscriptions w ++ new
    ∧ length new = activations cs
    ∧ Forall (λ d, ∃ r, d = VObj r
                ∧ heap w !! r = None
                ∧ heap (calls cs w) !! r = Some (OCommand "helloworld.helloWorld"))
        new.
Proof.
  induction cs as [|c cs IH] using rev_ind.
  - exists []. by rewrite app_nil_r.
  - destruct IH as (new & Hsubs & Hlen & Hall).
    destruct (calls_heap cs w) as (objs & Hheap & _).
    rewrite calls_snoc, step_subscriptions, Hsubs, <- app_assoc.
    eexists. split; [reflexivity|].
    rewrite length_app, Hlen, activations_snoc.
    split; [by destruct (is_Activate c)|].
    apply Forall_app_2.
    + eapply Forall_impl; [exact Hall|].
      intros d (r & -> & Hfresh & Hr). exists r.
      split; [reflexivity|]. split; [exact Hfresh|].
      destruct (step_heap (calls cs w) c) as (objs' & -> & _).
      by apply lookup_app_l_Some.
    + destruct c as [started|stopped|uri]; cbn [is_Activate]; [|constructor..].
      constructor; [|constructor].
      exists (length (heap (calls cs w))).
      split; [reflexivity|].
      split; [apply lookup_ge_None; rewrite Hheap, length_app; lia|].
      cbn [step].
      pose proof (activate_heap_new started (calls cs w) 0) as Hnew.
      by rewrite Nat.add_0_r in Hnew.
Qed.

Lemma precedes_app (a b : event) (l l' : list event) :
  precedes a b l → precedes a b (l ++ l').
Proof.
  intros (i & j & Hi & Hj & Hlt). exists i, j.
  split; [by apply lookup_app_l_Some|]. split; [by apply lookup_app_l_Some|done].
Qed.

Lemma precedes_new (a b c : event) (l l' : list event) (k : nat) :
  precedes a b l → l' !! k = Some c → precedes b c (l ++ l').
Proof.
  intros (i & j & _ & Hj & _) Hk. exists j, (length l + k).
  split; [by apply lookup_app_l_Some|].
  split; [by rewrite lookup_app_r, Nat.add_sub_swap, Nat.sub_diag by lia|].
  apply lookup_lt_Some in Hj. lia.
Qed.

Lemma is_LanguageClient_app (l l' : list host_object) (r : nat) :
  is_LanguageClient (l !! r) = true → is_LanguageClient ((l ++ l') !! r) = true.
Proof.
  destruct (l !! r) as [o|] eqn:Hr; [|discriminate].
  by rewrite (lookup_app_l_Some _ _ _ _ Hr).
Qed.

(** Since the module was loaded: the client [client] refers to has been
    constructed and then started, and so has every client that was
    stopped, before it was stopped. *)
Lemma calls_started_before_stopped (cs : list call) (w : World) :
  ∃ new, trace (calls cs (load w)) = trace w ++ new
    ∧ (∀ r, client (calls cs (load w)) = VObj r →
         precedes (ENewLanguageClient r) (EStart r) new)
    ∧ (∀ r, EStop r ∈ new →
         precedes (ENewLanguageClient r) (EStart r) new
         ∧ precedes (EStart r) (EStop r) new).
Proof.
  induction cs as [|c cs IH] using rev_ind.
  - exists []. split; [by rewrite app_nil_r|].
    split; [discriminate|]. intros r Hr. by apply not_elem_of_nil in Hr.
  - destruct IH as (new & Htrace & Hclient & Hstop).
    rewrite calls_snoc. set (w' := calls cs (load w)) in *.
    destruct c as [started|stopped|uri]; cbn [step].
    + rewrite activate_trace, activate_client, Htrace, <- app_assoc.
      eexists. split; [reflexivity|]. split.
      * intros r [= <-]. exists (length new + 5), (length new + 7).
        split; [by rewrite lookup_app_r, Nat.add_sub_swap, Nat.sub_diag by lia|].
        split; [by rewrite lookup_app_r, Nat.add_sub_swap, Nat.sub_diag by lia|lia].
      * intros r [Hr|Hr]%elem_of_app.
        { destruct (Hstop r Hr). split; by apply precedes_app. }
        apply list_elem_of_lookup in Hr as [i Hi].
        do 8 (destruct i as [|i]; [discriminate|]). discriminate.
    + rewrite deactivate_run. cbn [snd client trace].
      rewrite Htrace, <- app_assoc.
      eexists. split; [reflexivity|]. split.
      * intros r Hr. by apply precedes_app, Hclient.
      * intros r [Hr|Hr]%elem_of_app.
        { destruct (Hstop r Hr). split; by apply precedes_app. }
        destruct (client w') as [| | | | |r'| | | |] eqn:Hc;
          try (apply list_elem_of_singleton in Hr; discriminate).
        destruct (is_LanguageClient (heap w' !! r'));
          [|apply list_elem_of_singleton in Hr; discriminate].
        apply list_elem_of_lookup in Hr as [i Hi].
        destruct i as [|[|i]]; try discriminate.
        injection Hi as <-.
        split; [by apply precedes_app, Hclient|].
        by apply (precedes_new _ _ _ _ _ 1 (Hclient r' eq_refl)).
    + rewrite helloWorld_run. cbn [snd client trace].
      rewrite Htrace, <- app_assoc.
      eexists. split; [reflexivity|]. split.
      * intros r Hr. by apply precedes_app, Hclient.
      * intros r [Hr|Hr]%elem_of_app.
        { destruct (Hstop r Hr). split; by apply precedes_app. }
        apply list_elem_of_lookup in Hr as [i Hi].
        destruct (inspection_fault uri); destruct i as [|[|i]]; discriminate.
Qed.

(** X8: in a loaded module, whatever the host calls and in whatever order,
    [stop()] is only ever called on a client that this module constructed
    and on which it called [start()] before. *)
Theorem stop_only_after_start (cs : list call) (w : World) (r : nat) :
  let new := emitted (trace w) (calls cs (load w)) in
  EStop r ∈ new →
  precedes (ENewLanguageClient r) (EStart r) new
  ∧ precedes (EStart r) (EStop r) new.
Proof.
  intros new. subst new.
  destruct (calls_started_before_stopped cs w) as (new & Htrace & _ & Hstop).
  rewrite (emitted_app _ _ _ Htrace). apply Hstop.
Qed.

Lemma stop_only_after_start_witness :
  let new := emitted []
    (calls [Activate Pending; Deactivate (Fulfilled VUndefined)] (load empty_world)) in
  EStop 3 ∈ new
  ∧ precedes (ENewLanguageClient 3) (EStart 3) new
  ∧ precedes (EStart 3) (EStop 3) new.
Proof.
  assert (Hstop : EStop 3 ∈ emitted (trace empty_world)
    (calls [Activate Pending; Deactivate (Fulfilled VUndefined)] (load empty_world))).
  { apply list_elem_of_lookup. by exists 9. }
  split; [exact Hstop|].
  exact (stop_only_after_start
           [Activate Pending; Deactivate (Fulfilled VUndefined)] empty_world 3 Hstop).
Defined.

Lemma calls_started_clients (cs : list call) (w : World) :
  ∃ new, trace (calls cs w) = trace w ++ new
    ∧ NoDup (started_clients new)
    ∧ length (started_clients new) = activations cs
    ∧ ∀ r, r ∈ started_clients new →
        (length (heap w) ≤ r)%nat
        ∧ is_LanguageClient (heap (calls cs w) !! r) = true.
Proof.
  induction cs as [|c cs IH] using rev_ind.
  - exists []. split; [by rewrite app_nil_r|].
    split; [constructor|]. split; [reflexivity|].
    intros r Hr. by apply not_elem_of_nil in Hr.
  - destruct IH as (new & Htrace & Hnodup & Hlen & Hin).
    destruct (calls_heap cs w) as (objs & Hheap & _).
    rewrite calls_snoc, activations_snoc. set (w' := calls cs w) in *.
    destruct c as [started|stopped|uri]; cbn [step is_Activate].
    + rewrite activate_trace, Htrace, <- app_assoc.
      eexists. split; [reflexivity|].
      unfold started_clients in *. rewrite omap_app. cbn [omap].
      split; [|split].
      * apply NoDup_app. split; [exact Hnodup|]. split; [|apply NoDup_singleton].
        intros r Hr Heq%list_elem_of_singleton. subst r.
        destruct (Hin _ Hr) as [_ Hobj].
        destruct (heap w' !! (length (heap w') + 3)) eqn:Hlook; [|discriminate].
        apply lookup_lt_Some in Hlook. lia.
      * rewrite length_app, Hlen. reflexivity.
      * intros r [Hr|Heq%list_elem_of_singleton]%elem_of_app.
        { destruct (Hin r Hr) as [Hge Hobj]. split; [exact Hge|].
          rewrite activate_heap. by apply is_LanguageClient_app. }
        subst r.
        split; [rewrite Hheap, length_app; lia|].
        by rewrite activate_heap_new.
    + rewrite deactivate_run. cbn [snd heap trace].
      rewrite Htrace, <- app_assoc.
      eexists. split; [reflexivity|].
      assert (Hnone : started_clients
        (EConsoleLog (VStr "Exiting Generic LSP extention") ::
         match client w' with
         | VObj r => if is_LanguageClient (heap w' !! r) then [EStop r] else []
         | _ => []
         end) = []).
      { destruct (client w') as [| | | | |r| | | |]; try reflexivity.
        by destruct (is_LanguageClient (heap w' !! r)). }
      unfold started_clients in *. rewrite omap_app, Hnone, app_nil_r, Nat.add_0_r.
      done.
    + rewrite helloWorld_run. cbn [snd heap trace].
      rewrite Htrace, <- app_assoc.
      eexists. split; [reflexivity|].
      assert (Hnone : started_clients
        (EConsoleLog (VStr "Running command registered as helloworld.helloWorld") ::
         match inspection_fault uri with
         | Some _ => []
         | None => [EConsoleLog uri]
         end) = []) by (by destruct (inspection_fault uri)).
      unfold started_clients in *. rewrite omap_app, Hnone, app_nil_r, Nat.add_0_r.
      done.
Qed.

(** X9: [start()] is called once per activation and never twice on the
    same client: the clients started by any sequence of calls are pairwise
    different, as many as there were activations, and each is a language
    client constructed during those calls. *)
Theorem each_client_started_once (cs : list call) (w : World) :
  let started := started_clients (emitted (trace w) (calls cs w)) in
  NoDup started
  ∧ length started = activations cs
  ∧ ∀ r, r ∈ started →
      heap w !! r = None
      ∧ is_LanguageClient (heap (calls cs w) !! r) = true.
Proof.
  intros started. subst started.
  destruct (calls_started_clients cs w) as (new & Htrace & Hnodup & Hlen & Hin).
  rewrite (emitted_app _ _ _ Htrace).
  split; [exact Hnodup|]. split; [exact Hlen|].
  intros r Hr. destruct (Hin r Hr) as [Hge Hobj].
  split; [by apply lookup_ge_None|exact Hobj].
Qed.

Lemma each_client_started_once_witness :
  let started := started_clients (emitted []
    (calls [Activate Pending; Deactivate Pending; Activate Pending] (load empty_world))) in
  3 ∈ started ∧ heap (load empty_world) !! 3 = None.
Proof.
  intros started.
  assert (Hin : 3 ∈ started) by (apply list_elem_of_lookup; by exists 0).
  split; [exact Hin|].
  exact (proj1 (proj2 (proj2 (each_client_started_once
    [Activate Pending; Deactivate Pending; Activate Pending] (load empty_world))) 3 Hin)).
Defined.

Lemma step_lifecycle_state (w1 w2 : World) (c : call) :
  lifecycle_state w1 = lifecycle_state w2 →
  lifecycle_state (step w1 c) = lifecycle_state (step w2 c).
Proof.
  destruct w1 as [c1 penv1 subs1 objs1 evs1], w2 as [c2 penv2 subs2 objs2 evs2].
  unfold lifecycle_state at 1 2; cbn [client process_env subscriptions heap].
  intros [= -> -> -> ->].
  destruct c as [started|stopped|uri]; cbn [step].
  - by rewrite !activate_run.
  - by rewrite !deactivate_run.
  - by rewrite !helloWorld_run.
Qed.

Lemma calls_lifecycle_state (cs : list call) (w1 w2 : World) :
  lifecycle_state w1 = lifecycle_state w2 →
  lifecycle_state (calls cs w1)
  = lifecycle_state (calls (List.filter (λ c, negb (is_HelloWorld c)) cs) w2).
Proof.
  revert w1 w2. induction cs as [|c cs IH]; intros w1 w2 Hsame; [done|].
  rewrite calls_cons.
  destruct c as [started|stopped|uri]; cbn [List.filter is_HelloWorld negb].
  - rewrite calls_cons. by apply IH, step_lifecycle_state.
  - rewrite calls_cons. by apply IH, step_lifecycle_state.
  - apply IH. rewrite <- Hsame. cbn [step]. by rewrite helloWorld_run.
Qed.

(** X10: running the command has no part in the lifecycle.  Dropping
    every run of the command from a sequence of calls leaves [client], the
    environment, the subscriptions and the host's objects as they are, and
    with them the outcome of a [deactivate] that follows. *)
Theorem command_runs_do_not_matter (cs : list call) (w : World) (stopped : settlement) :
  let without := List.filter (λ c, negb (is_HelloWorld c)) cs in
  lifecycle_state (calls cs w) = lifecycle_state (calls without w)
  ∧ (deactivate stopped (calls cs w)).1 = (deactivate stopped (calls without w)).1.
Proof.
  intros without. subst without.
  pose proof (calls_lifecycle_state cs w w eq_refl) as Hsame.
  split; [exact Hsame|].
  rewrite !deactivate_run. cbn [fst].
  injection Hsame as -> _ _ ->. reflexivity.
Qed.

Lemma step_process_env (w : World) (c : call) :
  process_env (step w c) = process_env w.
Proof.
  destruct c as [started|stopped|uri]; cbn [step].
  - apply activate_process_env.
  - by rewrite deactivate_run.
  - by rewrite helloWorld_run.
Qed.

Lemma calls_process_env (cs : list call) (w : World) :
  process_env (calls cs w) = process_env w.
Proof.
  induction cs as [|c cs IH] using rev_ind; [done|].
  by rewrite calls_snoc, step_process_env.
Qed.

(** X11: the module reads [process.env] and never writes it.  [RUST_LOG]
    is forced to [debug] in the copy handed to the server only: after any
    calls the environment of the extension's own process is what it was,
    [RUST_LOG] included. *)
Theorem process_env_untouched (cs : list call) (w : World) (started : settlement) :
  process_env (calls cs w) = process_env w
  ∧ process_env (activate started w).2 !! "RUST_LOG" = process_env w !! "RUST_LOG"
  ∧ ∃ id name so co,
      client_object (activate started w).2 = Some (OLanguageClient id name so co)
      ∧ ExecutableOptions.env (Executable.options (ServerOptions.run so)) !! "RUST_LOG"
        = Some "debug".
Proof.
  split; [apply calls_process_env|].
  split; [by rewrite activate_process_env|].
  rewrite activate_client_object. eexists _, _, _, _.
  split; [reflexivity|].
  apply lookup_insert_eq.
Qed.

(** A language client that appears among the host's objects during an
    activation is the one this activation constructs. *)
Lemma activate_new_client (started : settlement) (w : World) (r : nat)
    (id name : string) (so : ServerOptions.t) (co : LanguageClientOptions.t) :
  heap w !! r = None →
  heap (activate started w).2 !! r = Some (OLanguageClient id name so co) →
  r = length (heap w) + 3
  ∧ id = "generic-language-server"
  ∧ name = "Generic language server"
  ∧ so = serverOptions (run (command (process_env w)) (process_env w))
  ∧ co = clientOptions (VObj (length (heap w) + 2)) (VObj (length (heap w) + 1)).
Proof.
  intros Hold Hr.
  apply lookup_ge_None in Hold.
  pose proof (lookup_lt_Some _ _ _ Hr) as Hlt.
  rewrite activate_heap, length_app in Hlt. cbn [length] in Hlt.
  replace r with (length (heap w) + (r - length (heap w))) in Hr by lia.
  rewrite activate_heap_new in Hr.
  destruct (r - length (heap w)) as [|[|[|[|k]]]] eqn:Hk;
    cbn [lookup list_lookup] in Hr;
    [discriminate Hr|discriminate Hr|discriminate Hr| |discriminate Hr].
  injection Hr as <- <- <- <-.
  split; [lia|]. done.
Qed.

Lemma step_new_client (w : World) (c : call) (r : nat)
    (id name : string) (so : ServerOptions.t) (co : LanguageClientOptions.t) :
  heap w !! r = None →
  heap (step w c) !! r = Some (OLanguageClient id name so co) →
  is_Activate c = true
  ∧ r = length (heap w) + 3
  ∧ id = "generic-language-server"
  ∧ name = "Generic language server"
  ∧ so = serverOptions (run (command (process_env w)) (process_env w))
  ∧ co = clientOptions (VObj (length (heap w) + 2)) (VObj (length (heap w) + 1)).
Proof.
  destruct c as [started|stopped|uri]; cbn [step]; intros Hold Hr.
  - split; [reflexivity|]. by apply (activate_new_client started).
  - rewrite deactivate_heap in Hr. congruence.
  - rewrite helloWorld_run in Hr. cbn [snd heap] in Hr. congruence.
Qed.

(** Every language client among the host's objects that was not there
    before the calls. *)
Lemma calls_clients (cs : list call) (w : World) (r : nat)
    (id name : string) (so : ServerOptions.t) (co : LanguageClientOptions.t) :
  heap w !! r = None →
  heap (calls cs w) !! r = Some (OLanguageClient id name so co) →
  id = "generic-language-server"
  ∧ name = "Generic language server"
  ∧ so = serverOptions (run (command (process_env w)) (process_env w))
  ∧ ∃ channel,
      co = clientOptions (VObj (channel + 1)) (VObj channel)
      ∧ r = channel + 2
      ∧ heap w !! channel = None
      ∧ heap (calls cs w) !! channel
        = Some (OOutputChannel "Generic Language Server trace")
      ∧ heap (calls cs w) !! (channel + 1) = Some (OFileSystemWatcher "**/*.gen").
Proof.
  intros Hfresh.
  induction cs as [|c cs IH] using rev_ind.
  { intros Hr. change (calls [] w) with w in Hr. congruence. }
  destruct (calls_heap cs w) as (objs & Hheap & _).
  pose proof (calls_process_env cs w) as Henv.
  rewrite calls_snoc.
  destruct (step_heap (calls cs w) c) as (objs' & Hstep & _).
  intros Hr.
  destruct (decide (r < length (heap (calls cs w)))) as [Hlt|Hge].
  - (* constructed by an earlier call *)
    rewrite Hstep, lookup_app_l in Hr by exact Hlt.
    destruct (IH Hr) as (-> & -> & -> & channel & -> & -> & Hch & Hch' & Hwa').
    repeat (split; [reflexivity|]). exists channel.
    repeat (split; [done|]).
    rewrite Hstep. split; by apply lookup_app_l_Some.
  - (* constructed by this call *)
    assert (Hold : heap (calls cs w) !! r = None) by (apply lookup_ge_None; lia).
    destruct (step_new_client _ _ _ _ _ _ _ Hold Hr) as (Hact & -> & -> & -> & -> & ->).
    destruct c as [started|stopped|uri]; try discriminate Hact. cbn [step].
    rewrite Henv.
    repeat (split; [reflexivity|]).
    exists (length (heap (calls cs w)) + 1).
    split; [by rewrite <- Nat.add_assoc|].
    split; [lia|].
    split; [apply lookup_ge_None; rewrite Hheap, length_app; lia|].
    split; [by rewrite activate_heap_new|].
    by rewrite <- Nat.add_assoc, activate_heap_new.
Qed.

(** X12: every language client the module constructs, in whatever sequence
    of calls, has the same identifier and name and the launch spec and
    document selector of the process environment, and comes with a trace
    channel and a file watcher of its own, created just before it by the
    same activation: clients never share a channel or a watcher. *)
Theorem every_client_configured_alike (cs : list call) (w : World) (r : nat)
    (id name : string) (so : ServerOptions.t) (co : LanguageClientOptions.t) :
  heap w !! r = None →
  heap (calls cs w) !! r = Some (OLanguageClient id name so co) →
  id = "generic-language-server"
  ∧ name = "Generic language server"
  ∧ so = serverOptions (run (command (process_env w)) (process_env w))
  ∧ LanguageClientOptions.documentSelector co
    = [ {| DocumentFilter.scheme := "file"; DocumentFilter.language := "gen" |} ]
  ∧ ∃ channel watcher,
      LanguageClientOptions.traceOutputChannel co = VObj channel
      ∧ SynchronizeOptions.fileEvents (LanguageClientOptions.synchronize co)
        = VObj watcher
      ∧ watcher = channel + 1 ∧ r = watcher + 1
      ∧ heap w !! channel = None
      ∧ heap (calls cs w) !! channel
        = Some (OOutputChannel "Generic Language Server trace")
      ∧ heap (calls cs w) !! watcher = Some (OFileSystemWatcher "**/*.gen").
Proof.
  intros Hfresh Hr.
  destruct (calls_clients cs w r id name so co Hfresh Hr)
    as (-> & -> & -> & channel & -> & -> & Hch & Hch' & Hwa').
  repeat (split; [reflexivity|]).
  exists channel, (channel + 1).
  repeat (split; [reflexivity|]).
  split; [lia|]. done.
Qed.

Lemma every_client_configured_alike_witness :
  let w' := calls [Activate Pending; Activate (Fulfilled VNull)] (load empty_world) in
  let so := serverOptions (run (command ∅) ∅) in
  let co := clientOptions (VObj 6) (VObj 5) in
  heap (load empty_world) !! 7 = None
  ∧ heap w' !! 7 = Some (OLanguageClient "generic-language-server"
                           "Generic language server" so co)
  ∧ LanguageClientOptions.documentSelector co
    = [ {| DocumentFilter.scheme := "file"; DocumentFilter.language := "gen" |} ].
Proof.
  intros w' so co.
  assert (Hfresh : heap (load empty_world) !! 7 = None) by reflexivity.
  assert (Hr : heap w' !! 7 = Some (OLanguageClient "generic-language-server"
                                      "Generic language server" so co))
    by (vm_compute; reflexivity).
  split; [exact Hfresh|]. split; [exact Hr|].
  exact (proj1 (proj2 (proj2 (proj2 (every_client_configured_alike
    [Activate Pending; Activate (Fulfilled VNull)] (load empty_world) 7
    "generic-language-server" "Generic language server" so co Hfresh Hr))))).
Defined.
